(** * WikiMapper: lookups between Wikipedia titles / page ids and Wikidata ids

    A shallow embedding of [src/wikimapper/mapper.py].  The [mapping] table
    of the SQLite index is a list of rows in retrieval order; the three
    SELECT statements the class issues are list functions over it; the
    Python that post-processes the fetched rows is written in a small
    state-and-exception monad so that both the value a method returns and
    what it leaves behind can be stated.  A Python [str] is the string of
    its UTF-8 bytes: ['/'] and the ASCII letters are single bytes that occur
    in no other character, so splitting and case folding act on bytes as
    they act on characters. *)

From Stdlib Require Import Ascii String.
From stdpp Require Import base decidable option list strings.

Local Open Scope string_scope.
Local Open Scope list_scope.

(** ** The index store *)

(** One row of [mapping (wikipedia_id, wikipedia_title, wikidata_id)].
    [wikidata_id] is NULL for a page without a linked entity. *)
Record MappingRecord : Type := mkRecord {
  wikipedia_id : string;
  wikipedia_title : string;
  wikidata_id : option string
}.

(** The table, in the order in which a scan retrieves its rows.  Nothing is
    unique: titles, page ids and wikidata ids may all repeat. *)
Abbreviation Store := (list MappingRecord).

(** ** The SQL the class issues *)

Module Sql.

(** The NOCASE collation folds the 26 upper-case ASCII letters to lower
    case and compares the results; every other character is left alone. *)
Definition upper_to_lower (c : ascii) : ascii :=
  let n := nat_of_ascii c in
  if (65 <=? n)%nat && (n <=? 90)%nat then ascii_of_nat (n + 32) else c.

Fixpoint fold_case (s : string) : string :=
  match s with
  | EmptyString => EmptyString
  | String c s' => String (upper_to_lower c) (fold_case s')
  end.

(** [a = b] under BINARY (the default) or [a = b COLLATE NOCASE]. *)
Definition collate_eq (nocase : bool) (a b : string) : Prop :=
  if nocase then fold_case a = fold_case b else a = b.

Global Instance collate_eq_dec nocase a b : Decision (collate_eq nocase a b).
Proof. destruct nocase; simpl; apply _. Defined.

(** SELECT DISTINCT: a value is emitted the first time the scan meets it
    and dropped afterwards; [seen] is the set of values already emitted.
    NULLs count as equal to each other here. *)
Fixpoint distinct_from {A} `{EqDecision A} (seen l : list A) : list A :=
  match l with
  | [] => []
  | x :: l' =>
      if decide (x ∈ seen) then distinct_from seen l'
      else x :: distinct_from (x :: seen) l'
  end.

Definition distinct {A} `{EqDecision A} (l : list A) : list A :=
  distinct_from [] l.

(** Rows selected by each WHERE clause.  A NULL never compares equal to
    the bound parameter. *)
Definition where_title (nocase : bool) (key : string) (db : Store) : Store :=
  filter (λ r, collate_eq nocase (wikipedia_title r) key) db.

Definition where_wikidata_id (key : string) (db : Store) : Store :=
  filter (λ r, wikidata_id r = Some key) db.

Definition where_wikipedia_id (key : string) (db : Store) : Store :=
  filter (λ r, wikipedia_id r = key) db.

(** [SELECT wikidata_id FROM mapping WHERE wikipedia_title=? {COLLATE NOCASE}] *)
Definition select_wikidata_id (nocase : bool) (key : string) (db : Store)
  : list (option string) :=
  wikidata_id <$> where_title nocase key db.

(** [SELECT DISTINCT wikipedia_title FROM mapping WHERE wikidata_id =?] *)
Definition select_distinct_title (key : string) (db : Store) : list string :=
  distinct (wikipedia_title <$> where_wikidata_id key db).

(** [SELECT DISTINCT wikidata_id FROM mapping WHERE wikipedia_id =?] *)
Definition select_distinct_wikidata_id (key : string) (db : Store)
  : list (option string) :=
  distinct (wikidata_id <$> where_wikipedia_id key db).

End Sql.

(** ** The Python around the queries *)

(** The object: its only attribute is set in [__init__]. *)
Record WikiMapper : Type := mkMapper { _path_to_db : string }.

(** What a call can see and could change: the mapper object and, for each
    path, the [mapping] table of the database file found there. *)
Record World : Type := mkWorld {
  this : WikiMapper;
  disk : string → Store
}.

Inductive exn : Type := StopIteration | IndexError.

Inductive outcome (A : Type) : Type :=
  | Returns (a : A)
  | Raises (e : exn).
Arguments Returns {A} a.
Arguments Raises {A} e.

Definition Py (A : Type) : Type := World → outcome A * World.

Global Instance Py_ret : MRet Py := λ A a w, (Returns a, w).

Global Instance Py_bind : MBind Py := λ A B k m w,
  match m w with
  | (Returns a, w') => k a w'
  | (Raises e, w') => (Raises e, w')
  end.

Definition raise {A} (e : exn) : Py A := λ w, (Raises e, w).

(** [self._path_to_db] *)
Definition get_path_to_db : Py string :=
  λ w, (Returns (_path_to_db (this w)), w).

(** [with sqlite3.connect(path) as conn: c = conn.cursor(); c.execute(q, args);
    results = c.fetchall()] for a SELECT [q]: the rows come from the table
    at [path]; leaving the block commits a transaction that wrote nothing.
    A one-column result row is represented by its value, so the source's
    [item[0]] is the row itself. *)
Definition fetchall {A} (path : string) (q : Store → list A) : Py (list A) :=
  λ w, (Returns (q (disk w path)), w).

(** Truth value of an [Optional[str]]: [None] and [''] are false. *)
Definition truthy (v : option string) : bool :=
  match v with
  | None => false
  | Some s => negb (String.eqb s "")
  end.

(** [any(g)] over the values a generator yields. *)
Definition any (l : list (option string)) : bool := existsb truthy l.

(** [next(g)] without a default. *)
Definition next {A} (l : list A) : Py A :=
  match l with
  | [] => raise StopIteration
  | x :: _ => mret x
  end.

(** [l[i]] for [i >= 0]. *)
Definition getitem {A} (l : list A) (i : nat) : Py A :=
  match l !! i with
  | Some x => mret x
  | None => raise IndexError
  end.

(** [l[-1]] *)
Definition getitem_last {A} (l : list A) : Py A :=
  match last l with
  | Some x => mret x
  | None => raise IndexError
  end.

(** [s.rsplit(sep, maxsplit)] for a one-character separator: the scan runs
    from the right end, cuts at each separator while splits remain, and the
    pieces, collected last field first, are reversed at the end.
    [rsplit_scan] walks the reversed string; [field] is the piece being
    collected, already in reading order. *)
Fixpoint rsplit_scan (sep : ascii) (maxsplit : nat) (r field : list ascii)
  : list (list ascii) :=
  match r with
  | [] => [field]
  | c :: r' =>
      match maxsplit with
      | O => [rev r ++ field]
      | S m =>
          if decide (c = sep) then field :: rsplit_scan sep m r' []
          else rsplit_scan sep maxsplit r' (c :: field)
      end
  end.

Definition rsplit (sep : ascii) (maxsplit : nat) (s : string) : list string :=
  string_of_list_ascii <$>
    rev (rsplit_scan sep maxsplit (rev (list_ascii_of_string s)) []).

(** ** The four methods *)

Definition title_to_id (page_title : string) (uncased : bool)
  : Py (option string) :=
  path ← get_path_to_db;
  results ← fetchall path (Sql.select_wikidata_id uncased page_title);
  if (length results =? 0)%nat then mret None
  else if any results then next (filter (λ item, truthy item) results)
  else mret None.

Definition url_to_id (wiki_url : string) : Py (option string) :=
  title ← getitem_last (rsplit "/" 1 wiki_url);
  title_to_id title false.

Definition id_to_titles (wikidata_id : string) : Py (list string) :=
  path ← get_path_to_db;
  results ← fetchall path (Sql.select_distinct_title wikidata_id);
  mret ((λ e, e) <$> results).

Definition pid_to_id (wikipedia_id : string) : Py (option string) :=
  path ← get_path_to_db;
  results ← fetchall path (Sql.select_distinct_wikidata_id wikipedia_id);
  if (length results =? 0)%nat then mret None
  else getitem results 0.

(** [WikiMapper(path_to_db)]: the constructor stores the path and opens
    nothing. *)
Definition __init__ (path_to_db : string) : Py unit :=
  λ w, (Returns tt, mkWorld (mkMapper path_to_db) (disk w)).

(** The table a call reads: the one at the mapper's path. *)
Definition store (w : World) : Store := disk w (_path_to_db (this w)).

(** A world with one mapper and the same table at every path. *)
Definition world_of (db : Store) : World :=
  mkWorld (mkMapper "index.db") (λ _, db).

(** ** Reference functions for the results *)

(** The first value of a column that Python counts as true. *)
Fixpoint first_truthy (l : list (option string)) : option string :=
  match l with
  | [] => None
  | x :: l' => if truthy x then x else first_truthy l'
  end.

(** The first value of a column that is not NULL, as the comment in
    [title_to_id] words it ("return the first non-None value"). *)
Fixpoint first_non_null (l : list (option string)) : option string :=
  match l with
  | [] => None
  | Some s :: _ => Some s
  | None :: l' => first_non_null l'
  end.

(** [c] occurs nowhere in [s]. *)
Definition lacks (c : ascii) (s : string) : Prop :=
  c ∉ list_ascii_of_string s.

Global Instance lacks_dec c s : Decision (lacks c s).
Proof. unfold lacks. apply _. Defined.

(** ** Letter case *)



(** Lower case beyond ASCII, for the accented Latin letters: in UTF-8 the
    letters [À]..[Þ] are the byte 195 followed by 128..158 (151 is the sign
    [×], no letter) and their lower-case forms [à]..[þ] lie 32 above in the
    second byte.  [lead] tells that the previous byte was 195.  This is
    what [str.lower] does to these characters and to the ASCII letters. *)
Fixpoint lower_from (lead : bool) (s : string) : string :=
  match s with
  | EmptyString => EmptyString
  | String c s' =>
      let n := nat_of_ascii c in
      if lead then
        String (if (128 <=? n)%nat && (n <=? 158)%nat && negb (n =? 151)%nat
                then ascii_of_nat (n + 32) else c)
               (lower_from false s')
      else String (Sql.upper_to_lower c) (lower_from (n =? 195)%nat s')
  end.

(** Two strings that differ at most in letter case, accented letters
    included. *)
Definition letter_case_variant (s t : string) : Prop :=
  lower_from false s = lower_from false t.

Global Instance letter_case_variant_dec s t : Decision (letter_case_variant s t).
Proof. unfold letter_case_variant. apply _. Defined.

(** ** Sample data *)

Definition sample : Store :=
  [ mkRecord "339" "Manatee" (Some "Q42797");
    mkRecord "340" "Sea_cow" (Some "Q42797");
    mkRecord "341" "T" None;
    mkRecord "342" "T" (Some "Q1");
    mkRecord "343" "Manatee" (Some "Q42797");
    mkRecord "344" "Ghost" None;
    mkRecord "344" "Ghost" (Some "Q7");
    mkRecord "345" "Blank" (Some "");
    mkRecord "346" "Blank" None;
    mkRecord "347" "Dugong" (Some "Q132524") ].

(** * Properties *)

(** ** The monad: running the methods *)

Section Running.
Context (w : World).

Lemma truthy_Some (v : option string) :
  truthy v = true ↔ ∃ s, v = Some s ∧ s ≠ "".
Proof.
  destruct v as [s|]; simpl.
  - rewrite negb_true_iff. split.
    + intros H. exists s. split; [done|]. intros ->. discriminate.
    + intros (s' & [= <-] & Hne). apply String.eqb_neq. done.
  - split; [discriminate | intros (s & ? & _); discriminate].
Qed.

Lemma any_first_truthy (l : list (option string)) :
  any l = false → first_truthy l = None.
Proof.
  induction l as [|x l IH]; simpl; [done|].
  destruct (truthy x); simpl; [discriminate | exact IH].
Qed.

Lemma next_first_truthy (l : list (option string)) :
  any l = true →
  next (filter (λ item, truthy item) l) w = (Returns (first_truthy l), w).
Proof.
  induction l as [|x l IH]; [discriminate|].
  unfold any in *. cbn [existsb first_truthy].
  destruct (truthy x) eqn:Hx; cbn [orb].
  - intros _. rewrite filter_cons_True by (by rewrite Hx). done.
  - intros H. rewrite filter_cons_False by (rewrite Hx; exact id). auto.
Qed.

(** [title_to_id] never raises: the guard [any] keeps [next] away from an
    exhausted generator. *)
Lemma title_to_id_run (page_title : string) (uncased : bool) :
  title_to_id page_title uncased w =
    (Returns (first_truthy (Sql.select_wikidata_id uncased page_title (store w))), w).
Proof.
  unfold title_to_id, mbind, Py_bind, get_path_to_db, fetchall. simpl.
  fold (store w).
  set (results := Sql.select_wikidata_id uncased page_title (store w)).
  destruct results as [|x l] eqn:E; [done|].
  change (length (x :: l) =? 0)%nat with false. cbv iota.
  destruct (any (x :: l)) eqn:Hany.
  - by apply next_first_truthy.
  - by rewrite any_first_truthy.
Qed.

Lemma id_to_titles_run (key : string) :
  id_to_titles key w = (Returns (Sql.select_distinct_title key (store w)), w).
Proof.
  unfold id_to_titles, mbind, Py_bind, get_path_to_db, fetchall. simpl.
  fold (store w). by rewrite list_fmap_id.
Qed.

Lemma pid_to_id_run (key : string) :
  pid_to_id key w =
    (Returns (mjoin (head (Sql.select_distinct_wikidata_id key (store w)))), w).
Proof.
  unfold pid_to_id, mbind, Py_bind, get_path_to_db, fetchall. simpl.
  fold (store w).
  by destruct (Sql.select_distinct_wikidata_id key (store w)).
Qed.

End Running.

(** ** SELECT DISTINCT *)

Section Distinct.
Context {A : Type} `{EqDecision A}.
Implicit Types (seen l : list A) (x : A).

Lemma elem_of_distinct_from seen l x :
  x ∈ Sql.distinct_from seen l ↔ x ∈ l ∧ x ∉ seen.
Proof.
  revert seen. induction l as [|y l IH]; intros seen; simpl.
  - rewrite elem_of_nil. tauto.
  - destruct (decide (y ∈ seen)) as [Hy|Hy].
    + rewrite IH, elem_of_cons. split; [tauto|].
      intros [[->|?] ?]; tauto.
    + rewrite !elem_of_cons, IH, elem_of_cons. split.
      * intros [->|[? ?]]; tauto.
      * intros [[->|?] ?]; [tauto|].
        destruct (decide (x = y)); tauto.
Qed.

Lemma NoDup_distinct_from seen l : NoDup (Sql.distinct_from seen l).
Proof.
  revert seen. induction l as [|y l IH]; intros seen; simpl.
  - constructor.
  - destruct (decide (y ∈ seen)); [apply IH|].
    apply NoDup_cons. split; [|apply IH].
    rewrite elem_of_distinct_from, elem_of_cons. tauto.
Qed.

Lemma sublist_distinct_from seen l : Sql.distinct_from seen l `sublist_of` l.
Proof.
  revert seen. induction l as [|y l IH]; intros seen; simpl; [done|].
  destruct (decide (y ∈ seen)).
  - apply sublist_cons, IH.
  - apply sublist_skip, IH.
Qed.

Lemma head_distinct l : head (Sql.distinct l) = head l.
Proof.
  unfold Sql.distinct. destruct l as [|y l]; [done|].
  cbn [Sql.distinct_from]. destruct (decide (y ∈ [])) as [Hy|_]; [|done].
  by apply elem_of_nil in Hy.
Qed.

Lemma distinct_from_app seen l1 l2 :
  Sql.distinct_from seen (l1 ++ l2) =
    Sql.distinct_from seen l1 ++
    Sql.distinct_from (rev (Sql.distinct_from seen l1) ++ seen) l2.
Proof.
  revert seen. induction l1 as [|y l1 IH]; intros seen; [done|].
  cbn [app Sql.distinct_from]. destruct (decide (y ∈ seen)); [apply IH|].
  rewrite IH. cbn [rev app]. by rewrite <- app_assoc.
Qed.

(** A value stands in the result where its first row stands in the scan:
    the values before it are those of the rows before that row. *)
Lemma distinct_first_occurrence l pre x post :
  Sql.distinct l = pre ++ x :: post →
  ∃ l1 l2, l = l1 ++ x :: l2 ∧ (x ∉ l1) ∧ (∀ y, y ∈ pre ↔ y ∈ l1).
Proof.
  intros Hd.
  assert (x ∈ l) as Hx.
  { eapply (proj1 (elem_of_distinct_from [] l x)). unfold Sql.distinct in Hd.
    rewrite Hd, elem_of_app, elem_of_cons. tauto. }
  assert (x ∉ pre) as Hpre.
  { pose proof (NoDup_distinct_from [] l) as Hnd. unfold Sql.distinct in Hd.
    rewrite Hd in Hnd. apply NoDup_app in Hnd as (_ & Hnd & _).
    intros Hin. apply (Hnd x Hin). apply elem_of_cons. tauto. }
  destruct (list_elem_of_split_l l x Hx) as (l1 & l2 & -> & Hl1).
  exists l1, l2. split; [done|]. split; [done|].
  unfold Sql.distinct in Hd. rewrite distinct_from_app in Hd.
  assert (x ∉ Sql.distinct_from [] l1) as HD.
  { rewrite elem_of_distinct_from. tauto. }
  cbn [Sql.distinct_from] in Hd.
  destruct (decide (x ∈ rev (Sql.distinct_from [] l1) ++ [])) as [Hin|_].
  { exfalso. apply HD. rewrite app_nil_r in Hin.
    apply list_elem_of_In, in_rev, list_elem_of_In in Hin. done. }
  apply not_elem_of_app_cons_inv_l in Hd as (Heq & _ & _); [|done..].
  intros y. rewrite <- Heq, elem_of_distinct_from.
  split; [tauto|]. intros ?. split; [done|apply not_elem_of_nil].
Qed.

End Distinct.

(** ** [rsplit] with one split *)

Lemma list_ascii_of_string_app (s t : string) :
  list_ascii_of_string (s ++ t)%string =
    list_ascii_of_string s ++ list_ascii_of_string t.
Proof. induction s as [|c s IH]; simpl; [done | by rewrite IH]. Qed.

Lemma rsplit_scan_no_sep (sep : ascii) (m : nat) (r rest field : list ascii) :
  sep ∉ r →
  rsplit_scan sep (S m) (r ++ rest) field =
    rsplit_scan sep (S m) rest (rev r ++ field).
Proof.
  revert field. induction r as [|c r IH]; intros field Hr; [done|].
  apply not_elem_of_cons in Hr as [Hc Hr]. simpl.
  rewrite decide_False by congruence.
  rewrite IH by done. by rewrite <- app_assoc.
Qed.

Lemma lacks_rev (sep : ascii) (s : string) :
  lacks sep s → sep ∉ rev (list_ascii_of_string s).
Proof. unfold lacks. rewrite !list_elem_of_In, <- in_rev. done. Qed.

(** Without a separator the whole string is the only field. *)
Lemma rsplit_whole (sep : ascii) (m : nat) (s : string) :
  lacks sep s → rsplit sep (S m) s = [s].
Proof.
  intros Hs. unfold rsplit.
  rewrite <- (app_nil_r (rev (list_ascii_of_string s))).
  rewrite rsplit_scan_no_sep by by apply lacks_rev.
  simpl. rewrite rev_involutive, app_nil_r.
  by rewrite string_of_list_ascii_of_string.
Qed.

(** With one split allowed, the cut is at the last separator. *)
Lemma rsplit_cut (sep : ascii) (pre s : string) :
  lacks sep s → rsplit sep 1 (pre ++ String sep s)%string = [pre; s].
Proof.
  intros Hs. unfold rsplit.
  rewrite list_ascii_of_string_app. simpl.
  rewrite rev_app_distr. simpl. rewrite <- app_assoc. simpl.
  rewrite rsplit_scan_no_sep by by apply lacks_rev.
  simpl. rewrite decide_True by done.
  rewrite rev_involutive, app_nil_r.
  assert (rsplit_scan sep 0 (rev (list_ascii_of_string pre)) []
          = [list_ascii_of_string pre]) as ->.
  { destruct (rev (list_ascii_of_string pre)) as [|c r] eqn:E.
    - apply (f_equal (@rev ascii)) in E. rewrite rev_involutive in E.
      by rewrite E.
    - cbn [rsplit_scan]. rewrite <- E.
      by rewrite rev_involutive, app_nil_r. }
  simpl. by rewrite !string_of_list_ascii_of_string.
Qed.

(** [url_to_id] never raises either: [rsplit] always yields a field. *)
Lemma rsplit_scan_last (sep : ascii) (m : nat) (r field : list ascii) :
  rsplit_scan sep m r field ≠ [].
Proof.
  revert m field. induction r as [|c r IH]; intros m field; [done|].
  destruct m as [|m]; simpl; [done|]. destruct (decide (c = sep)); [done|apply IH].
Qed.

Lemma rsplit_nonempty (sep : ascii) (m : nat) (s : string) :
  is_Some (last (rsplit sep m s)).
Proof.
  apply last_is_Some. unfold rsplit. intros E.
  apply fmap_nil_inv in E. apply (f_equal (@rev _)) in E.
  rewrite rev_involutive in E. by apply rsplit_scan_last in E.
Qed.

Lemma url_to_id_run (w : World) (wiki_url : string) :
  ∃ title, last (rsplit "/" 1 wiki_url) = Some title ∧
           url_to_id wiki_url w = title_to_id title false w.
Proof.
  destruct (rsplit_nonempty "/" 1 wiki_url) as [title E].
  exists title. split; [done|].
  unfold url_to_id, getitem_last, mbind, Py_bind. by rewrite E.
Qed.

Lemma url_to_id_of_fields (w : World) (wiki_url title : string) (l : list string) :
  rsplit "/" 1 wiki_url = l ++ [title] →
  url_to_id wiki_url w = title_to_id title false w.
Proof.
  intros E. unfold url_to_id, getitem_last, mbind, Py_bind.
  by rewrite E, last_snoc.
Qed.

(** ** [title_to_id] *)

Lemma first_truthy_non_null (l : list (option string)) :
  Some "" ∉ l → first_truthy l = first_non_null l.
Proof.
  induction l as [|x l IH]; [done|].
  intros H. apply not_elem_of_cons in H as [Hx Hl]. simpl.
  destruct x as [s|]; simpl; [|by apply IH].
  destruct (String.eqb_spec s "") as [->|_]; [done|done].
Qed.

(** Where no matching row holds the empty string, the result is the first
    non-NULL wikidata id of the matching rows. *)
Lemma title_to_id_first_non_null (w : World) (page_title : string) (uncased : bool) :
  Some "" ∉ Sql.select_wikidata_id uncased page_title (store w) →
  fst (title_to_id page_title uncased w) =
    Returns (first_non_null (Sql.select_wikidata_id uncased page_title (store w))).
Proof. intros H. rewrite title_to_id_run. simpl. by rewrite first_truthy_non_null. Qed.

(** C1, at the input where code and claim part: the only row for title
    ["T"] carries the empty string as wikidata id.  The first non-null id of
    the matching rows is [""], yet [title_to_id] returns [None]; and with a
    second row carrying ["Q1"] it returns ["Q1"], again not the first
    non-null id. *)
Theorem title_to_id_empty_string_id :
  let one := world_of [mkRecord "7" "T" (Some "")] in
  let two := world_of [mkRecord "7" "T" (Some ""); mkRecord "8" "T" (Some "Q1")] in
  first_non_null (wikidata_id <$> Sql.where_title false "T" (store one)) = Some "" ∧
  fst (title_to_id "T" false one) = Returns None ∧
  first_non_null (wikidata_id <$> Sql.where_title false "T" (store two)) = Some "" ∧
  fst (title_to_id "T" false two) = Returns (Some "Q1").
Proof. repeat split; vm_compute; reflexivity. Qed.

(** C5: when exactly two rows match the title, one with a NULL wikidata id
    and one with ["Q1"], [title_to_id] returns ["Q1"] whichever of the two
    the scan retrieves first. *)
Theorem title_to_id_null_and_Q1 (w : World) (page_title : string)
    (r_null r_q1 : MappingRecord) :
  wikidata_id r_null = None →
  wikidata_id r_q1 = Some "Q1" →
  Sql.where_title false page_title (store w) = [r_null; r_q1] ∨
  Sql.where_title false page_title (store w) = [r_q1; r_null] →
  fst (title_to_id page_title false w) = Returns (Some "Q1").
Proof.
  intros Hnull Hq1 Horder. rewrite title_to_id_run. simpl.
  unfold Sql.select_wikidata_id.
  destruct Horder as [-> | ->]; simpl; rewrite Hnull, Hq1; reflexivity.
Qed.

Lemma title_to_id_null_and_Q1_witness :
  (wikidata_id (mkRecord "341" "T" None) = None ∧
   wikidata_id (mkRecord "342" "T" (Some "Q1")) = Some "Q1" ∧
   Sql.where_title false "T" (store (world_of sample)) =
     [mkRecord "341" "T" None; mkRecord "342" "T" (Some "Q1")]) ∧
  fst (title_to_id "T" false (world_of sample)) = Returns (Some "Q1").
Proof.
  assert (Sql.where_title false "T" (store (world_of sample)) =
     [mkRecord "341" "T" None; mkRecord "342" "T" (Some "Q1")]) as H
    by (vm_compute; reflexivity).
  split; [split; [reflexivity | split; [reflexivity | exact H]] |].
  apply (title_to_id_null_and_Q1 (world_of sample) "T"
           (mkRecord "341" "T" None) (mkRecord "342" "T" (Some "Q1")));
    [reflexivity | reflexivity | left; exact H].
Defined.

(** C9: an empty-string wikidata id counts like a NULL one.  If every row
    matching the title carries NULL or the empty string, [title_to_id]
    returns [None]; and on no store does it return the empty string. *)
Theorem title_to_id_empty_like_null (w : World) (page_title : string) (uncased : bool) :
  (Forall (λ r, wikidata_id r = None ∨ wikidata_id r = Some "")
          (Sql.where_title uncased page_title (store w)) →
   fst (title_to_id page_title uncased w) = Returns None) ∧
  fst (title_to_id page_title uncased w) ≠ Returns (Some "").
Proof.
  rewrite title_to_id_run. simpl. unfold Sql.select_wikidata_id.
  induction (Sql.where_title uncased page_title (store w)) as [|r l [IH1 IH2]].
  - split; [done | discriminate].
  - cbn [fmap list_fmap first_truthy]. destruct (truthy (wikidata_id r)) eqn:Hr.
    + apply truthy_Some in Hr as (s & Hs & Hne). rewrite Hs. split.
      * intros Hall. apply Forall_cons in Hall as [[Hn|He] _]; congruence.
      * intros [= ->]. done.
    + split; [|exact IH2].
      intros Hall. apply Forall_cons in Hall as [_ Hall]. auto.
Qed.

Lemma title_to_id_empty_like_null_witness :
  Forall (λ r, wikidata_id r = None ∨ wikidata_id r = Some "")
         (Sql.where_title false "Blank" (store (world_of sample))) ∧
  fst (title_to_id "Blank" false (world_of sample)) = Returns None.
Proof.
  assert (Forall (λ r, wikidata_id r = None ∨ wikidata_id r = Some "")
            (Sql.where_title false "Blank" (store (world_of sample)))) as H.
  { vm_compute. repeat (constructor; [auto|]). constructor. }
  split; [exact H|].
  exact (proj1 (title_to_id_empty_like_null (world_of sample) "Blank" false) H).
Defined.










(** ** [id_to_titles] *)

(** C2: [id_to_titles] returns a list without duplicates whose members are
    exactly the titles of the rows carrying the given wikidata id, in the
    order in which the scan retrieves them; when no row carries the id the
    list is empty (a returned value, no exception). *)
Theorem id_to_titles_distinct (w : World) (key : string) :
  ∃ titles : list string,
    fst (id_to_titles key w) = Returns titles ∧
    NoDup titles ∧
    (∀ t, t ∈ titles ↔
          ∃ r, r ∈ store w ∧ wikidata_id r = Some key ∧ wikipedia_title r = t) ∧
    titles `sublist_of` (wikipedia_title <$> Sql.where_wikidata_id key (store w)) ∧
    (∀ before t after, titles = before ++ t :: after →
       ∃ rows1 rows2,
         wikipedia_title <$> Sql.where_wikidata_id key (store w)
           = rows1 ++ t :: rows2 ∧
         (t ∉ rows1) ∧ (∀ t', t' ∈ before ↔ t' ∈ rows1)) ∧
    (Forall (λ r, wikidata_id r ≠ Some key) (store w) → titles = []).
Proof.
  exists (Sql.select_distinct_title key (store w)).
  rewrite id_to_titles_run. unfold Sql.select_distinct_title.
  split; [done|]. split; [apply NoDup_distinct_from|].
  split; [|split; [apply sublist_distinct_from|
                   split; [apply distinct_first_occurrence|]]];
    unfold Sql.distinct.
  - intros t. rewrite elem_of_distinct_from, list_elem_of_fmap.
    unfold Sql.where_wikidata_id. split.
    + intros [(r & -> & Hr) _]. apply list_elem_of_filter in Hr as [? ?].
      by exists r.
    + intros (r & Hr & Hid & <-). split; [|apply not_elem_of_nil].
      exists r. split; [done|]. by apply list_elem_of_filter.
  - intros Hnone. unfold Sql.where_wikidata_id.
    induction Hnone as [|r l Hr _ IH]; [done|].
    by rewrite filter_cons_False.
Qed.

Lemma id_to_titles_distinct_witness :
  Forall (λ r, wikidata_id r ≠ Some "Q0") (store (world_of sample)) ∧
  fst (id_to_titles "Q0" (world_of sample)) = Returns [].
Proof.
  assert (Forall (λ r, wikidata_id r ≠ Some "Q0") (store (world_of sample))) as H.
  { apply (bool_decide_unpack _). vm_compute. exact I. }
  split; [exact H|].
  destruct (id_to_titles_distinct (world_of sample) "Q0")
    as (titles & Hret & _ & _ & _ & _ & Hempty).
  rewrite Hret. f_equal. exact (Hempty H).
Defined.

(** ** [pid_to_id] *)

(** C3: [pid_to_id] returns [None] when no row has the page id; otherwise
    it returns the first of the distinct wikidata ids of the matching rows,
    which is the wikidata id of the first matching row; so a page id whose
    rows all carry ["Q132524"] is mapped to ["Q132524"]. *)
Theorem pid_to_id_first_distinct (w : World) (page_id : string) :
  (Sql.where_wikipedia_id page_id (store w) = [] →
   fst (pid_to_id page_id w) = Returns None) ∧
  (∀ v, head (Sql.distinct (wikidata_id <$> Sql.where_wikipedia_id page_id (store w)))
          = Some v →
        fst (pid_to_id page_id w) = Returns v) ∧
  (∀ r rest, Sql.where_wikipedia_id page_id (store w) = r :: rest →
             fst (pid_to_id page_id w) = Returns (wikidata_id r)) ∧
  (Sql.where_wikipedia_id page_id (store w) ≠ [] →
   Forall (λ r, wikidata_id r = Some "Q132524")
          (Sql.where_wikipedia_id page_id (store w)) →
   fst (pid_to_id page_id w) = Returns (Some "Q132524")).
Proof.
  rewrite pid_to_id_run. unfold Sql.select_distinct_wikidata_id. simpl.
  rewrite head_distinct.
  destruct (Sql.where_wikipedia_id page_id (store w)) as [|r rest].
  - repeat split; try done.
  - simpl. split; [done|]. split; [by intros v [= ->]|].
    split; [by intros ? ? [= -> _]|].
    intros _ Hall. apply Forall_cons in Hall as [-> _]. done.
Qed.

Lemma pid_to_id_first_distinct_witness :
  (Sql.where_wikipedia_id "347" (store (world_of sample)) ≠ [] ∧
   Forall (λ r, wikidata_id r = Some "Q132524")
          (Sql.where_wikipedia_id "347" (store (world_of sample)))) ∧
  fst (pid_to_id "347" (world_of sample)) = Returns (Some "Q132524") ∧
  (Sql.where_wikipedia_id "000" (store (world_of sample)) = [] ∧
   fst (pid_to_id "000" (world_of sample)) = Returns None).
Proof.
  assert (Sql.where_wikipedia_id "347" (store (world_of sample)) ≠ []) as Hne
    by (vm_compute; discriminate).
  assert (Forall (λ r, wikidata_id r = Some "Q132524")
            (Sql.where_wikipedia_id "347" (store (world_of sample)))) as Hall.
  { apply (bool_decide_unpack _). vm_compute. exact I. }
  assert (Sql.where_wikipedia_id "000" (store (world_of sample)) = []) as Hno
    by (vm_compute; reflexivity).
  split; [by split|]. split.
  - destruct (pid_to_id_first_distinct (world_of sample) "347") as (_ & _ & _ & H).
    exact (H Hne Hall).
  - split; [exact Hno|].
    destruct (pid_to_id_first_distinct (world_of sample) "000") as (H & _).
    exact (H Hno).
Defined.

(** C8: [pid_to_id] skips nothing.  When the first distinct wikidata id of
    the rows matching the page id is NULL, the result is [None], whatever
    ids the later rows carry. *)
Theorem pid_to_id_null_first (w : World) (page_id : string)
    (later : list (option string)) :
  Sql.select_distinct_wikidata_id page_id (store w) = None :: later →
  fst (pid_to_id page_id w) = Returns None.
Proof. intros H. rewrite pid_to_id_run. simpl. by rewrite H. Qed.

Lemma pid_to_id_null_first_witness :
  Sql.select_distinct_wikidata_id "344" (store (world_of sample))
    = [None; Some "Q7"] ∧
  fst (pid_to_id "344" (world_of sample)) = Returns None.
Proof.
  assert (Sql.select_distinct_wikidata_id "344" (store (world_of sample))
          = [None; Some "Q7"]) as H by (vm_compute; reflexivity).
  split; [exact H|].
  exact (pid_to_id_null_first (world_of sample) "344" [Some "Q7"] H).
Defined.

(** ** [url_to_id] *)

(** C4: [url_to_id] looks up, with exact (case-sensitive) matching, the part
    of the URL after its last ['/'].  For the Manatee URL it is the lookup of
    the title ["Manatee"]: same result, same world left behind. *)
Theorem url_to_id_last_segment :
  (∀ (w : World) (pre s : string),
     lacks "/" s →
     url_to_id (pre ++ String "/" s)%string w = title_to_id s false w) ∧
  (∀ w : World,
     url_to_id "https://en.wikipedia.org/wiki/Manatee" w =
       title_to_id "Manatee" false w).
Proof.
  assert (∀ (w : World) (pre s : string),
     lacks "/" s →
     url_to_id (pre ++ String "/" s)%string w = title_to_id s false w) as General.
  { intros w pre s Hs. apply (url_to_id_of_fields w _ s [pre]).
    by apply rsplit_cut. }
  split; [exact General|].
  intros w. apply (General w "https://en.wikipedia.org/wiki" "Manatee").
  by apply (bool_decide_unpack _).
Qed.

Lemma url_to_id_last_segment_witness :
  lacks "/" "Fermat's_Last_Theorem" ∧
  url_to_id ("https://en.wikipedia.org/wiki" ++ String "/" "Fermat's_Last_Theorem")%string
            (world_of sample) =
    title_to_id "Fermat's_Last_Theorem" false (world_of sample).
Proof.
  assert (lacks "/" "Fermat's_Last_Theorem") as H.
  { apply (bool_decide_unpack _). vm_compute. exact I. }
  split; [exact H|].
  exact (proj1 url_to_id_last_segment (world_of sample)
           "https://en.wikipedia.org/wiki" "Fermat's_Last_Theorem" H).
Defined.

(** C10: a string without any ['/'] is used whole as the title, and the
    extraction step raises nothing: [url_to_id] is then [title_to_id]. *)
Theorem url_to_id_no_slash (w : World) (u : string) :
  lacks "/" u →
  url_to_id u w = title_to_id u false w.
Proof.
  intros Hu. apply (url_to_id_of_fields w u u []).
  by apply rsplit_whole.
Qed.

Lemma url_to_id_no_slash_witness :
  lacks "/" "Manatee" ∧
  url_to_id "Manatee" (world_of sample) = title_to_id "Manatee" false (world_of sample) ∧
  fst (url_to_id "Manatee" (world_of sample)) = Returns (Some "Q42797").
Proof.
  assert (lacks "/" "Manatee") as H.
  { apply (bool_decide_unpack _). vm_compute. exact I. }
  split; [exact H|]. split.
  - exact (url_to_id_no_slash (world_of sample) "Manatee" H).
  - vm_compute. reflexivity.
Defined.

(** ** Frame *)

(** C7: the four queries are read-only.  Whatever the arguments, the world
    after the call is the world before it: the table at every path holds
    the same rows, and the mapper object the same attribute. *)
Theorem queries_read_only (w : World) :
  (∀ page_title uncased, snd (title_to_id page_title uncased w) = w) ∧
  (∀ wiki_url, snd (url_to_id wiki_url w) = w) ∧
  (∀ key, snd (id_to_titles key w) = w) ∧
  (∀ page_id, snd (pid_to_id page_id w) = w).
Proof.
  split; [|split; [|split]].
  - intros. by rewrite title_to_id_run.
  - intros wiki_url. destruct (url_to_id_run w wiki_url) as (title & _ & ->).
    by rewrite title_to_id_run.
  - intros. by rewrite id_to_titles_run.
  - intros. by rewrite pid_to_id_run.
Qed.

(** * Further properties of the lookups *)

(** ** What [first_truthy] finds *)

Lemma first_truthy_Some (l : list (option string)) (q : string) :
  first_truthy l = Some q → Some q ∈ l ∧ q ≠ "".
Proof.
  induction l as [|x l IH]; [discriminate|]. cbn [first_truthy].
  destruct (truthy x) eqn:Hx.
  - intros ->. apply truthy_Some in Hx as (s & [= <-] & Hne).
    split; [apply elem_of_cons; tauto | done].
  - intros H. destruct (IH H) as [? ?]. split; [apply elem_of_cons; tauto | done].
Qed.

Lemma first_truthy_None (l : list (option string)) :
  first_truthy l = None ↔ Forall (λ v, truthy v = false) l.
Proof.
  induction l as [|x l IH]; [by split|]. cbn [first_truthy].
  rewrite Forall_cons. destruct (truthy x) eqn:Hx.
  - split.
    + intros ->. discriminate.
    + intros [? _]. discriminate.
  - rewrite IH. tauto.
Qed.

Lemma first_truthy_found (l : list (option string)) (v : option string) :
  v ∈ l → truthy v = true → ∃ q, first_truthy l = Some q ∧ q ≠ "".
Proof.
  intros Hv Ht. destruct (first_truthy l) as [q|] eqn:E.
  - exists q. split; [done|]. by apply first_truthy_Some in E as [_ ?].
  - apply first_truthy_None in E. rewrite Forall_forall in E.
    specialize (E v Hv). congruence.
Qed.

Lemma first_truthy_app (l1 l2 : list (option string)) :
  first_truthy (l1 ++ l2) =
    match first_truthy l1 with
    | Some q => Some q
    | None => first_truthy l2
    end.
Proof.
  induction l1 as [|x l1 IH]; [done|]. cbn [app first_truthy].
  destruct (truthy x) eqn:Hx; [|exact IH].
  by apply truthy_Some in Hx as (s & -> & _).
Qed.

(** When the truthy values of a column are all one value, the first of them
    is that value whatever the order. *)
Lemma first_truthy_single (l : list (option string)) (q : string) :
  Forall (λ v, truthy v = true → v = Some q) l →
  first_truthy l = if any l then Some q else None.
Proof.
  unfold any. induction 1 as [|x l Hx _ IH]; [done|].
  cbn [first_truthy existsb]. destruct (truthy x); [by apply Hx | exact IH].
Qed.

Lemma any_Permutation (l l' : list (option string)) :
  l ≡ₚ l' → any l = any l'.
Proof.
  unfold any. induction 1 as [|x l l' _ IH|x y l|l l' l'' _ IH1 _ IH2]; simpl.
  - done.
  - by rewrite IH.
  - by rewrite !orb_assoc, (orb_comm (truthy y)).
  - by rewrite IH1.
Qed.

Lemma truthy_false (v : option string) :
  truthy v = false ↔ v = None ∨ v = Some "".
Proof.
  destruct v as [s|]; simpl.
  - rewrite negb_false_iff, String.eqb_eq. split; [intros ->; tauto|].
    by intros [?|[= ->]].
  - split; [tauto|done].
Qed.

(** ** The methods return *)

(** X1: no method raises.  The guard [any] keeps [next] from an exhausted
    generator, the length test keeps [results[0]] in range, and [rsplit]
    always yields a last field; each call returns a value. *)
Theorem methods_never_raise (w : World) :
  (∀ page_title uncased, ∃ v, fst (title_to_id page_title uncased w) = Returns v) ∧
  (∀ wiki_url, ∃ v, fst (url_to_id wiki_url w) = Returns v) ∧
  (∀ key, ∃ v, fst (id_to_titles key w) = Returns v) ∧
  (∀ page_id, ∃ v, fst (pid_to_id page_id w) = Returns v).
Proof.
  split; [|split; [|split]].
  - intros. rewrite title_to_id_run. by eexists.
  - intros wiki_url. destruct (url_to_id_run w wiki_url) as (title & _ & ->).
    rewrite title_to_id_run. by eexists.
  - intros. rewrite id_to_titles_run. by eexists.
  - intros. rewrite pid_to_id_run. by eexists.
Qed.

(** ** More on [title_to_id] *)

(** X2: an id that [title_to_id] returns is the non-empty wikidata id of a
    stored row whose title matches the query under the collation in use. *)
Theorem title_to_id_sound (w : World) (page_title : string) (uncased : bool)
    (q : string) :
  fst (title_to_id page_title uncased w) = Returns (Some q) →
  q ≠ "" ∧
  ∃ r, r ∈ store w ∧
       Sql.collate_eq uncased (wikipedia_title r) page_title ∧
       wikidata_id r = Some q.
Proof.
  rewrite title_to_id_run. simpl. intros [= H].
  apply first_truthy_Some in H as [Hin Hne]. split; [done|].
  unfold Sql.select_wikidata_id, Sql.where_title in Hin.
  apply list_elem_of_fmap in Hin as (r & Hq & Hr).
  apply list_elem_of_filter in Hr as [Hm Hr]. by exists r.
Qed.

Lemma title_to_id_sound_witness :
  fst (title_to_id "T" false (world_of sample)) = Returns (Some "Q1") ∧
  "Q1" ≠ "" ∧
  ∃ r, r ∈ store (world_of sample) ∧
       Sql.collate_eq false (wikipedia_title r) "T" ∧
       wikidata_id r = Some "Q1".
Proof.
  assert (fst (title_to_id "T" false (world_of sample)) = Returns (Some "Q1"))
    as H by (vm_compute; reflexivity).
  split; [exact H|].
  exact (title_to_id_sound (world_of sample) "T" false "Q1" H).
Defined.

(** X3: [title_to_id] returns [None] only when it has nothing to return:
    every matching row then carries NULL or the empty string. *)
Theorem title_to_id_None_only (w : World) (page_title : string) (uncased : bool) :
  fst (title_to_id page_title uncased w) = Returns None →
  Forall (λ r, wikidata_id r = None ∨ wikidata_id r = Some "")
         (Sql.where_title uncased page_title (store w)).
Proof.
  rewrite title_to_id_run. simpl. intros [= H].
  apply first_truthy_None in H. unfold Sql.select_wikidata_id in H.
  apply Forall_fmap in H. eapply Forall_impl; [exact H|].
  intros r Hr. by apply truthy_false.
Qed.

Lemma title_to_id_None_only_witness :
  fst (title_to_id "Blank" true (world_of sample)) = Returns None ∧
  Forall (λ r, wikidata_id r = None ∨ wikidata_id r = Some "")
         (Sql.where_title true "Blank" (store (world_of sample))).
Proof.
  assert (fst (title_to_id "Blank" true (world_of sample)) = Returns None)
    as H by (vm_compute; reflexivity).
  split; [exact H|].
  exact (title_to_id_None_only (world_of sample) "Blank" true H).
Defined.

(** X4: when the matching rows carry at most one meaningful wikidata id
    (every non-empty one is [q]), the result does not depend on the order in
    which the store yields its rows. *)
Theorem title_to_id_order_independent (w w' : World) (page_title : string)
    (uncased : bool) (q : string) :
  store w ≡ₚ store w' →
  Forall (λ r, truthy (wikidata_id r) = true → wikidata_id r = Some q)
         (Sql.where_title uncased page_title (store w)) →
  fst (title_to_id page_title uncased w') = fst (title_to_id page_title uncased w).
Proof.
  intros Hperm Hone. rewrite !title_to_id_run. simpl. f_equal.
  assert (Sql.select_wikidata_id uncased page_title (store w) ≡ₚ
          Sql.select_wikidata_id uncased page_title (store w')) as Hcol.
  { unfold Sql.select_wikidata_id, Sql.where_title. by rewrite Hperm. }
  assert (Forall (λ v, truthy v = true → v = Some q)
            (Sql.select_wikidata_id uncased page_title (store w))) as H1.
  { unfold Sql.select_wikidata_id. by apply Forall_fmap. }
  assert (Forall (λ v, truthy v = true → v = Some q)
            (Sql.select_wikidata_id uncased page_title (store w'))) as H2.
  { rewrite Forall_forall in H1 |- *. intros v Hv. apply H1. by rewrite Hcol. }
  rewrite (first_truthy_single _ q H1), (first_truthy_single _ q H2).
  by rewrite (any_Permutation _ _ Hcol).
Qed.

Lemma title_to_id_order_independent_witness :
  (store (world_of sample) ≡ₚ store (world_of (reverse sample)) ∧
   Forall (λ r, truthy (wikidata_id r) = true → wikidata_id r = Some "Q42797")
          (Sql.where_title true "MANATEE" (store (world_of sample)))) ∧
  fst (title_to_id "MANATEE" true (world_of (reverse sample))) =
    fst (title_to_id "MANATEE" true (world_of sample)).
Proof.
  assert (store (world_of sample) ≡ₚ store (world_of (reverse sample))) as Hp.
  { change (sample ≡ₚ reverse sample). symmetry. apply reverse_Permutation. }
  assert (Forall (λ r, truthy (wikidata_id r) = true → wikidata_id r = Some "Q42797")
            (Sql.where_title true "MANATEE" (store (world_of sample)))) as H.
  { apply (bool_decide_unpack _). vm_compute. exact I. }
  split; [by split|].
  exact (title_to_id_order_independent (world_of sample)
           (world_of (reverse sample)) "MANATEE" true "Q42797" Hp H).
Defined.

Lemma where_title_cased_uncased (db : Store) (key : string) (r : MappingRecord) :
  r ∈ Sql.where_title false key db → r ∈ Sql.where_title true key db.
Proof.
  unfold Sql.where_title. rewrite !list_elem_of_filter. simpl.
  intros [-> ?]. done.
Qed.

(** X5: the uncased lookup finds at least what the exact one finds.  If
    [title_to_id] returns an id for a title, then with [uncased] set it
    returns an id too (possibly that of another casing met earlier). *)
Theorem title_to_id_uncased_finds_more (w : World) (page_title q : string) :
  fst (title_to_id page_title false w) = Returns (Some q) →
  ∃ q', fst (title_to_id page_title true w) = Returns (Some q') ∧ q' ≠ "".
Proof.
  rewrite !title_to_id_run. simpl. intros [= H].
  apply first_truthy_Some in H as [Hin Hne].
  unfold Sql.select_wikidata_id in Hin.
  apply list_elem_of_fmap in Hin as (r & Hq & Hr).
  apply where_title_cased_uncased in Hr.
  destruct (first_truthy_found (Sql.select_wikidata_id true page_title (store w))
              (Some q)) as (q' & Hq' & Hne').
  - unfold Sql.select_wikidata_id. apply list_elem_of_fmap. by exists r.
  - apply truthy_Some. by exists q.
  - exists q'. by rewrite Hq'.
Qed.

Lemma title_to_id_uncased_finds_more_witness :
  fst (title_to_id "Sea_cow" false (world_of sample)) = Returns (Some "Q42797") ∧
  ∃ q', fst (title_to_id "Sea_cow" true (world_of sample)) = Returns (Some q') ∧
        q' ≠ "".
Proof.
  assert (fst (title_to_id "Sea_cow" false (world_of sample))
          = Returns (Some "Q42797")) as H by (vm_compute; reflexivity).
  split; [exact H|].
  exact (title_to_id_uncased_finds_more (world_of sample) "Sea_cow" "Q42797" H).
Defined.

(** X6: with [uncased] set the casing of the query is immaterial: two
    queries that differ only in the case of ASCII letters get the same
    answer. *)
Theorem title_to_id_uncased_query (w : World) (query query' : string) :
  Sql.fold_case query = Sql.fold_case query' →
  title_to_id query true w = title_to_id query' true w.
Proof.
  intros Hq. rewrite !title_to_id_run. do 3 f_equal.
  unfold Sql.select_wikidata_id, Sql.where_title. f_equal.
  apply list_filter_iff. intros r. simpl. by rewrite Hq.
Qed.

Lemma title_to_id_uncased_query_witness :
  Sql.fold_case "MANATEE" = Sql.fold_case "mAnAtEe" ∧
  title_to_id "MANATEE" true (world_of sample) =
    title_to_id "mAnAtEe" true (world_of sample).
Proof.
  assert (Sql.fold_case "MANATEE" = Sql.fold_case "mAnAtEe") as H
    by (vm_compute; reflexivity).
  split; [exact H|].
  exact (title_to_id_uncased_query (world_of sample) "MANATEE" "mAnAtEe" H).
Defined.

(** ** More on [url_to_id] *)

Lemma string_of_list_ascii_app (l1 l2 : list ascii) :
  string_of_list_ascii (l1 ++ l2) =
    (string_of_list_ascii l1 ++ string_of_list_ascii l2)%string.
Proof. induction l1 as [|c l1 IH]; simpl; [done | by rewrite IH]. Qed.

(** A string has no separator, or a last one. *)
Lemma last_separator (sep : ascii) (u : string) :
  lacks sep u ∨
  ∃ pre s, u = (pre ++ String sep s)%string ∧ lacks sep s.
Proof.
  destruct (decide (lacks sep u)) as [|Hin]; [by left|right].
  unfold lacks in Hin. apply dec_stable in Hin.
  apply list_elem_of_split_r in Hin as (l1 & l2 & Hu & Hl2).
  exists (string_of_list_ascii l1), (string_of_list_ascii l2). split.
  - rewrite <- (string_of_list_ascii_of_string u), Hu.
    by rewrite string_of_list_ascii_app.
  - unfold lacks. by rewrite list_ascii_of_string_of_list_ascii.
Qed.

(** X7: for every input string, [url_to_id] is the exact lookup of its
    longest suffix free of ['/']: the whole string when it has no ['/'],
    what follows the last ['/'] otherwise (the empty title when the string
    ends in ['/']). *)
Theorem url_to_id_slash_free_suffix (w : World) (wiki_url : string) :
  ∃ title,
    lacks "/" title ∧
    (wiki_url = title ∨ ∃ pre, wiki_url = (pre ++ String "/" title)%string) ∧
    url_to_id wiki_url w = title_to_id title false w.
Proof.
  destruct (last_separator "/" wiki_url) as [Hu|(pre & s & -> & Hs)].
  - exists wiki_url. split; [done|]. split; [by left|].
    apply (url_to_id_of_fields w wiki_url wiki_url []). by apply rsplit_whole.
  - exists s. split; [done|]. split; [right; by exists pre|].
    apply (url_to_id_of_fields w _ s [pre]). by apply rsplit_cut.
Qed.

(** ** Round trips between the lookups *)

Lemma row_title_listed (w : World) (r : MappingRecord) (q : string) :
  r ∈ store w → wikidata_id r = Some q →
  wikipedia_title r ∈ Sql.select_distinct_title q (store w).
Proof.
  intros Hr Hq. unfold Sql.select_distinct_title, Sql.distinct.
  apply elem_of_distinct_from. split; [|apply not_elem_of_nil].
  apply list_elem_of_fmap. exists r. split; [done|].
  unfold Sql.where_wikidata_id. by apply list_elem_of_filter.
Qed.

(** X8: forward then back.  If the exact lookup of a title returns the id
    [q], then the title is among [id_to_titles q]. *)
Theorem title_to_id_then_id_to_titles (w : World) (page_title q : string) :
  fst (title_to_id page_title false w) = Returns (Some q) →
  ∃ titles, fst (id_to_titles q w) = Returns titles ∧ page_title ∈ titles.
Proof.
  intros H. apply title_to_id_sound in H as (_ & r & Hr & Ht & Hq).
  simpl in Ht. exists (Sql.select_distinct_title q (store w)).
  rewrite id_to_titles_run. split; [done|].
  rewrite <- Ht. by apply row_title_listed.
Qed.

Lemma title_to_id_then_id_to_titles_witness :
  fst (title_to_id "Sea_cow" false (world_of sample)) = Returns (Some "Q42797") ∧
  ∃ titles, fst (id_to_titles "Q42797" (world_of sample)) = Returns titles ∧
            "Sea_cow" ∈ titles.
Proof.
  assert (fst (title_to_id "Sea_cow" false (world_of sample))
          = Returns (Some "Q42797")) as H by (vm_compute; reflexivity).
  split; [exact H|].
  exact (title_to_id_then_id_to_titles (world_of sample) "Sea_cow" "Q42797" H).
Defined.

(** X9: back then forward.  Every title that [id_to_titles] lists for a
    non-empty id resolves: its exact lookup returns some non-empty id, and
    returns that very id when the rows of the title carry no other. *)
Theorem id_to_titles_then_title_to_id (w : World) (key t : string)
    (titles : list string) :
  key ≠ "" →
  fst (id_to_titles key w) = Returns titles →
  t ∈ titles →
  (∃ q, fst (title_to_id t false w) = Returns (Some q) ∧ q ≠ "") ∧
  (Forall (λ r, truthy (wikidata_id r) = true → wikidata_id r = Some key)
          (Sql.where_title false t (store w)) →
   fst (title_to_id t false w) = Returns (Some key)).
Proof.
  intros Hkey Hret Ht. rewrite id_to_titles_run in Hret. simpl in Hret.
  injection Hret as <-.
  unfold Sql.select_distinct_title, Sql.distinct in Ht.
  apply elem_of_distinct_from in Ht as [Ht _].
  apply list_elem_of_fmap in Ht as (r & -> & Hr).
  unfold Sql.where_wikidata_id in Hr. apply list_elem_of_filter in Hr as [Hid Hr].
  assert (Some key ∈ Sql.select_wikidata_id false (wikipedia_title r) (store w))
    as Hin.
  { unfold Sql.select_wikidata_id, Sql.where_title.
    apply list_elem_of_fmap. exists r. split; [done|].
    by apply list_elem_of_filter. }
  assert (truthy (Some key) = true) as Htr by (apply truthy_Some; by exists key).
  rewrite title_to_id_run. simpl. split.
  - destruct (first_truthy_found _ _ Hin Htr) as (q & -> & Hne). by exists q.
  - intros Hone. f_equal. rewrite (first_truthy_single _ key).
    + destruct (any _) eqn:Hany; [done|].
      apply any_first_truthy, first_truthy_None in Hany.
      rewrite Forall_forall in Hany. specialize (Hany _ Hin). congruence.
    + unfold Sql.select_wikidata_id. by apply Forall_fmap.
Qed.

Lemma id_to_titles_then_title_to_id_witness :
  ("Q42797" ≠ "" ∧
   fst (id_to_titles "Q42797" (world_of sample)) = Returns ["Manatee"; "Sea_cow"] ∧
   "Sea_cow" ∈ ["Manatee"; "Sea_cow"] ∧
   Forall (λ r, truthy (wikidata_id r) = true → wikidata_id r = Some "Q42797")
          (Sql.where_title false "Sea_cow" (store (world_of sample)))) ∧
  fst (title_to_id "Sea_cow" false (world_of sample)) = Returns (Some "Q42797").
Proof.
  assert ("Q42797" ≠ "") as H1 by discriminate.
  assert (fst (id_to_titles "Q42797" (world_of sample))
          = Returns ["Manatee"; "Sea_cow"]) as H2 by (vm_compute; reflexivity).
  assert ("Sea_cow" ∈ ["Manatee"; "Sea_cow"]) as H3.
  { apply (bool_decide_unpack _). vm_compute. exact I. }
  assert (Forall (λ r, truthy (wikidata_id r) = true → wikidata_id r = Some "Q42797")
            (Sql.where_title false "Sea_cow" (store (world_of sample)))) as H4.
  { apply (bool_decide_unpack _). vm_compute. exact I. }
  split; [by repeat split|].
  exact (proj2 (id_to_titles_then_title_to_id (world_of sample) "Q42797"
                  "Sea_cow" ["Manatee"; "Sea_cow"] H1 H2 H3) H4).
Defined.

(** X10: a wikidata id that [pid_to_id] returns belongs to a stored row with
    that page id, and the title of that row is among [id_to_titles] of the
    id. *)
Theorem pid_to_id_then_id_to_titles (w : World) (page_id q : string) :
  fst (pid_to_id page_id w) = Returns (Some q) →
  ∃ r titles,
    r ∈ store w ∧ wikipedia_id r = page_id ∧ wikidata_id r = Some q ∧
    fst (id_to_titles q w) = Returns titles ∧ wikipedia_title r ∈ titles.
Proof.
  intros H. rewrite pid_to_id_run in H. simpl in H. injection H as H.
  unfold Sql.select_distinct_wikidata_id in H. rewrite head_distinct in H.
  destruct (Sql.where_wikipedia_id page_id (store w)) as [|r rest] eqn:E;
    [discriminate|].
  simpl in H.
  assert (r ∈ Sql.where_wikipedia_id page_id (store w)) as Hr
    by (rewrite E; apply elem_of_cons; tauto).
  unfold Sql.where_wikipedia_id in Hr. apply list_elem_of_filter in Hr as [Hp Hr].
  exists r, (Sql.select_distinct_title q (store w)).
  rewrite id_to_titles_run.
  split; [done|]. split; [done|]. split; [done|]. split; [done|].
  by apply row_title_listed.
Qed.

Lemma pid_to_id_then_id_to_titles_witness :
  fst (pid_to_id "340" (world_of sample)) = Returns (Some "Q42797") ∧
  ∃ r titles,
    r ∈ store (world_of sample) ∧ wikipedia_id r = "340" ∧
    wikidata_id r = Some "Q42797" ∧
    fst (id_to_titles "Q42797" (world_of sample)) = Returns titles ∧
    wikipedia_title r ∈ titles.
Proof.
  assert (fst (pid_to_id "340" (world_of sample)) = Returns (Some "Q42797"))
    as H by (vm_compute; reflexivity).
  split; [exact H|].
  exact (pid_to_id_then_id_to_titles (world_of sample) "340" "Q42797" H).
Defined.

(** ** More on [id_to_titles] *)

Lemma distinct_from_NoDup {A} `{EqDecision A} (seen l : list A) :
  NoDup l → Forall (λ x, x ∉ seen) l → Sql.distinct_from seen l = l.
Proof.
  intros Hnd. revert seen. induction Hnd as [|x l Hx _ IH]; intros seen Hs; [done|].
  apply Forall_cons in Hs as [Hxs Hs]. cbn [Sql.distinct_from].
  rewrite decide_False by done. f_equal. apply IH.
  rewrite Forall_forall in Hs |- *. intros y Hy.
  rewrite not_elem_of_cons. split; [by intros ->|by apply Hs].
Qed.

(** X11: [id_to_titles] never lists more titles than there are rows with
    the id, and when those rows have pairwise different titles it lists
    exactly their titles, one per row, in row order. *)
Theorem id_to_titles_one_per_row (w : World) (key : string) :
  ∃ titles,
    fst (id_to_titles key w) = Returns titles ∧
    (length titles ≤ length (Sql.where_wikidata_id key (store w)))%nat ∧
    (NoDup (wikipedia_title <$> Sql.where_wikidata_id key (store w)) →
     titles = wikipedia_title <$> Sql.where_wikidata_id key (store w)).
Proof.
  exists (Sql.select_distinct_title key (store w)).
  rewrite id_to_titles_run. split; [done|].
  unfold Sql.select_distinct_title, Sql.distinct. split.
  - rewrite <- (length_fmap wikipedia_title).
    apply sublist_length, sublist_distinct_from.
  - intros Hnd. apply distinct_from_NoDup; [done|].
    apply Forall_forall. intros ? _. apply not_elem_of_nil.
Qed.

Lemma id_to_titles_one_per_row_witness :
  let w := world_of [ mkRecord "339" "Manatee" (Some "Q42797");
                      mkRecord "341" "T" None;
                      mkRecord "340" "Sea_cow" (Some "Q42797");
                      mkRecord "350" "Trichechus" (Some "Q42797");
                      mkRecord "342" "T" (Some "Q1") ] in
  NoDup (wikipedia_title <$> Sql.where_wikidata_id "Q42797" (store w)) ∧
  wikipedia_title <$> Sql.where_wikidata_id "Q42797" (store w)
    = ["Manatee"; "Sea_cow"; "Trichechus"] ∧
  fst (id_to_titles "Q42797" w) = Returns ["Manatee"; "Sea_cow"; "Trichechus"].
Proof.
  intros w.
  assert (NoDup (wikipedia_title <$> Sql.where_wikidata_id "Q42797" (store w)))
    as H.
  { apply (bool_decide_unpack _). vm_compute. exact I. }
  assert (wikipedia_title <$> Sql.where_wikidata_id "Q42797" (store w)
          = ["Manatee"; "Sea_cow"; "Trichechus"]) as Hcol
    by (vm_compute; reflexivity).
  split; [exact H|]. split; [exact Hcol|].
  destruct (id_to_titles_one_per_row w "Q42797") as (titles & Hret & _ & Hexact).
  rewrite Hret, (Hexact H), Hcol. reflexivity.
Defined.

(** ** The three directions agree on consistent data *)

(** X12: take a stored row with a non-empty wikidata id [q] such that every
    row sharing its title, and every row sharing its page id, carries [q]
    too.  Then the lookup of its title and the lookup of its page id both
    return [q], and [id_to_titles q] lists its title. *)
Theorem consistent_row_lookups_agree (w : World) (i : nat) (r : MappingRecord)
    (q : string) :
  store w !! i = Some r →
  wikidata_id r = Some q →
  q ≠ "" →
  Forall (λ r', wikipedia_title r' = wikipedia_title r → wikidata_id r' = Some q)
         (store w) →
  Forall (λ r', wikipedia_id r' = wikipedia_id r → wikidata_id r' = Some q)
         (store w) →
  fst (title_to_id (wikipedia_title r) false w) = Returns (Some q) ∧
  fst (pid_to_id (wikipedia_id r) w) = Returns (Some q) ∧
  ∃ titles, fst (id_to_titles q w) = Returns titles ∧ wikipedia_title r ∈ titles.
Proof.
  intros Hi Hq Hne Htitle Hpid.
  assert (r ∈ store w) as Hr by (apply list_elem_of_lookup; by exists i).
  rewrite Forall_forall in Htitle, Hpid.
  assert (fst (title_to_id (wikipedia_title r) false w) = Returns (Some q)) as Ht.
  { rewrite title_to_id_run. simpl. f_equal.
    rewrite (first_truthy_single _ q).
    - destruct (any _) eqn:Hany; [done|].
      apply any_first_truthy, first_truthy_None in Hany.
      rewrite Forall_forall in Hany.
      assert (truthy (Some q) = false) as Hf.
      { apply Hany. unfold Sql.select_wikidata_id, Sql.where_title.
        apply list_elem_of_fmap. exists r. split; [done|].
        by apply list_elem_of_filter. }
      assert (truthy (Some q) = true) by (apply truthy_Some; by exists q).
      congruence.
    - unfold Sql.select_wikidata_id, Sql.where_title. apply Forall_fmap.
      apply Forall_forall. intros r' Hr' _.
      apply list_elem_of_filter in Hr' as [Hm Hr']. simpl in *. auto. }
  split; [exact Ht|]. split.
  - rewrite pid_to_id_run. simpl. f_equal.
    unfold Sql.select_distinct_wikidata_id. rewrite head_distinct.
    assert (r ∈ Sql.where_wikipedia_id (wikipedia_id r) (store w)) as Hin
      by (unfold Sql.where_wikipedia_id; by apply list_elem_of_filter).
    destruct (Sql.where_wikipedia_id (wikipedia_id r) (store w))
      as [|r0 rest] eqn:E; [by apply elem_of_nil in Hin|].
    assert (r0 ∈ Sql.where_wikipedia_id (wikipedia_id r) (store w)) as H0
      by (rewrite E; apply elem_of_cons; tauto).
    unfold Sql.where_wikipedia_id in H0.
    apply list_elem_of_filter in H0 as [Hp0 H0]. simpl.
    by apply Hpid.
  - exists (Sql.select_distinct_title q (store w)).
    rewrite id_to_titles_run. split; [done|]. by apply row_title_listed.
Qed.

Lemma consistent_row_lookups_agree_witness :
  (store (world_of sample) !! 1%nat = Some (mkRecord "340" "Sea_cow" (Some "Q42797")) ∧
   "Q42797" ≠ "" ∧
   Forall (λ r', wikipedia_title r' = "Sea_cow" → wikidata_id r' = Some "Q42797")
          (store (world_of sample)) ∧
   Forall (λ r', wikipedia_id r' = "340" → wikidata_id r' = Some "Q42797")
          (store (world_of sample))) ∧
  fst (title_to_id "Sea_cow" false (world_of sample)) = Returns (Some "Q42797") ∧
  fst (pid_to_id "340" (world_of sample)) = Returns (Some "Q42797") ∧
  ∃ titles, fst (id_to_titles "Q42797" (world_of sample)) = Returns titles ∧
            "Sea_cow" ∈ titles.
Proof.
  assert (store (world_of sample) !! 1%nat
          = Some (mkRecord "340" "Sea_cow" (Some "Q42797"))) as H1 by reflexivity.
  assert ("Q42797" ≠ "") as H2 by discriminate.
  assert (Forall (λ r', wikipedia_title r' = "Sea_cow" →
                        wikidata_id r' = Some "Q42797")
            (store (world_of sample))) as H3.
  { apply (bool_decide_unpack _). vm_compute. exact I. }
  assert (Forall (λ r', wikipedia_id r' = "340" → wikidata_id r' = Some "Q42797")
            (store (world_of sample))) as H4.
  { apply (bool_decide_unpack _). vm_compute. exact I. }
  split; [by repeat split|].
  exact (consistent_row_lookups_agree (world_of sample) 1
           (mkRecord "340" "Sea_cow" (Some "Q42797")) "Q42797"
           H1 eq_refl H2 H3 H4).
Defined.

(** ** Growing the store *)

(** X13: first match wins, so rows retrieved after the present ones cannot
    dislodge an answer.  On a store extended at its end, an id found for a
    title is still the answer, the titles of an id keep their places with
    new ones only after them, and a page id that had rows keeps its
    answer. *)
Theorem lookups_stable_under_append (w w' : World) (more : Store) :
  store w' = store w ++ more →
  (∀ page_title uncased q,
     fst (title_to_id page_title uncased w) = Returns (Some q) →
     fst (title_to_id page_title uncased w') = Returns (Some q)) ∧
  (∀ key, ∃ titles added,
     fst (id_to_titles key w) = Returns titles ∧
     fst (id_to_titles key w') = Returns (titles ++ added)) ∧
  (∀ page_id,
     Sql.where_wikipedia_id page_id (store w) ≠ [] →
     fst (pid_to_id page_id w') = fst (pid_to_id page_id w)).
Proof.
  intros Hw'. split; [|split].
  - intros page_title uncased q. rewrite !title_to_id_run. simpl.
    intros [= H]. f_equal. rewrite Hw'.
    unfold Sql.select_wikidata_id, Sql.where_title in *.
    by rewrite filter_app, fmap_app, first_truthy_app, H.
  - intros key. rewrite !id_to_titles_run, Hw'. simpl.
    unfold Sql.select_distinct_title, Sql.distinct, Sql.where_wikidata_id.
    rewrite filter_app, fmap_app, distinct_from_app. by eexists _, _.
  - intros page_id Hne. rewrite !pid_to_id_run, Hw'. simpl. do 2 f_equal.
    unfold Sql.select_distinct_wikidata_id. rewrite !head_distinct.
    unfold Sql.where_wikipedia_id in *. rewrite filter_app, fmap_app.
    by destruct (filter _ (store w)).
Qed.

Lemma lookups_stable_under_append_witness :
  store (world_of (sample ++ [mkRecord "400" "T" (Some "Q400")])) =
    store (world_of sample) ++ [mkRecord "400" "T" (Some "Q400")] ∧
  fst (title_to_id "T" false (world_of sample)) = Returns (Some "Q1") ∧
  fst (title_to_id "T" false
         (world_of (sample ++ [mkRecord "400" "T" (Some "Q400")])))
    = Returns (Some "Q1").
Proof.
  assert (store (world_of (sample ++ [mkRecord "400" "T" (Some "Q400")])) =
            store (world_of sample) ++ [mkRecord "400" "T" (Some "Q400")]) as H
    by reflexivity.
  assert (fst (title_to_id "T" false (world_of sample)) = Returns (Some "Q1"))
    as Hq by (vm_compute; reflexivity).
  split; [exact H|]. split; [exact Hq|].
  exact (proj1 (lookups_stable_under_append (world_of sample)
                  (world_of (sample ++ [mkRecord "400" "T" (Some "Q400")]))
                  [mkRecord "400" "T" (Some "Q400")] H)
           "T" false "Q1" Hq).
Defined.

(** ** Construction *)

(** X14: building a mapper for a path changes no table, and the answers of
    the mapper so built depend on the table at that path alone: in two
    worlds that agree there, whatever else they hold and whatever mapper
    they held before, every query gives the same answer. *)
Theorem init_reads_only_its_path (w w' : World) (path_to_db : string) :
  disk w path_to_db = disk w' path_to_db →
  disk (snd (__init__ path_to_db w)) = disk w ∧
  (∀ page_title uncased,
     fst ((__init__ path_to_db ≫= λ _, title_to_id page_title uncased) w) =
     fst ((__init__ path_to_db ≫= λ _, title_to_id page_title uncased) w')) ∧
  (∀ wiki_url,
     fst ((__init__ path_to_db ≫= λ _, url_to_id wiki_url) w) =
     fst ((__init__ path_to_db ≫= λ _, url_to_id wiki_url) w')) ∧
  (∀ key,
     fst ((__init__ path_to_db ≫= λ _, id_to_titles key) w) =
     fst ((__init__ path_to_db ≫= λ _, id_to_titles key) w')) ∧
  (∀ page_id,
     fst ((__init__ path_to_db ≫= λ _, pid_to_id page_id) w) =
     fst ((__init__ path_to_db ≫= λ _, pid_to_id page_id) w')).
Proof.
  intros Hdisk. split; [done|].
  assert (store (mkWorld (mkMapper path_to_db) (disk w)) =
          store (mkWorld (mkMapper path_to_db) (disk w'))) as Hs by exact Hdisk.
  unfold mbind, Py_bind, __init__. cbn [fst snd].
  split; [|split; [|split]].
  - intros. by rewrite !title_to_id_run, Hs.
  - intros wiki_url.
    destruct (url_to_id_run (mkWorld (mkMapper path_to_db) (disk w)) wiki_url)
      as (title & Hl & ->).
    destruct (url_to_id_run (mkWorld (mkMapper path_to_db) (disk w')) wiki_url)
      as (title' & Hl' & ->).
    rewrite Hl in Hl'. injection Hl' as <-.
    by rewrite !title_to_id_run, Hs.
  - intros. by rewrite !id_to_titles_run, Hs.
  - intros. by rewrite !pid_to_id_run, Hs.
Qed.

Lemma init_reads_only_its_path_witness :
  disk (mkWorld (mkMapper "old.db") (λ p, if decide (p = "index.db") then sample else []))
       "index.db" =
  disk (world_of sample) "index.db" ∧
  fst ((__init__ "index.db" ≫= λ _, pid_to_id "347")
         (mkWorld (mkMapper "old.db")
                  (λ p, if decide (p = "index.db") then sample else []))) =
  fst ((__init__ "index.db" ≫= λ _, pid_to_id "347") (world_of sample)).
Proof.
  assert (disk (mkWorld (mkMapper "old.db")
                  (λ p, if decide (p = "index.db") then sample else []))
            "index.db" = disk (world_of sample) "index.db") as H by reflexivity.
  split; [exact H|].
  destruct (init_reads_only_its_path
              (mkWorld (mkMapper "old.db")
                 (λ p, if decide (p = "index.db") then sample else []))
              (world_of sample) "index.db" H) as (_ & _ & _ & _ & Hpid).
  exact (Hpid "347").
Defined.

(** ** Retrieval order and [id_to_titles] *)

(** X15: the retrieval order decides only the order of the list
    [id_to_titles] returns, not its content: on two stores holding the same
    rows the two results are rearrangements of each other. *)
Theorem id_to_titles_order_independent (w w' : World) (key : string) :
  store w ≡ₚ store w' →
  ∃ titles titles',
    fst (id_to_titles key w) = Returns titles ∧
    fst (id_to_titles key w') = Returns titles' ∧
    titles ≡ₚ titles'.
Proof.
  intros Hperm.
  exists (Sql.select_distinct_title key (store w)),
         (Sql.select_distinct_title key (store w')).
  rewrite !id_to_titles_run. split; [done|]. split; [done|].
  unfold Sql.select_distinct_title, Sql.distinct.
  apply NoDup_Permutation; [apply NoDup_distinct_from..|].
  intros t. rewrite !elem_of_distinct_from.
  unfold Sql.where_wikidata_id. by rewrite Hperm.
Qed.

Lemma id_to_titles_order_independent_witness :
  store (world_of sample) ≡ₚ store (world_of (reverse sample)) ∧
  ∃ titles titles',
    fst (id_to_titles "Q42797" (world_of sample)) = Returns titles ∧
    fst (id_to_titles "Q42797" (world_of (reverse sample))) = Returns titles' ∧
    titles ≡ₚ titles'.
Proof.
  assert (store (world_of sample) ≡ₚ store (world_of (reverse sample))) as Hp.
  { change (sample ≡ₚ reverse sample). symmetry. apply reverse_Permutation. }
  split; [exact Hp|].
  exact (id_to_titles_order_independent (world_of sample)
           (world_of (reverse sample)) "Q42797" Hp).
Defined.
